(** * lovers_base: the database model of [src/lovers_base/model.py]

    The module declares SQLAlchemy mapped classes.  Rows are records, the
    stored rows are an explicit [Database] value, and a raised Python
    exception is an [Error] carrying the name of its class.  Relationship
    attributes are the queries that their [relationship()] declarations
    configure; the constraints of a table are read off its [Column]
    declarations. *)

From Stdlib Require Import ZArith List String Bool Lia Relations.
From Stdlib Require Import Ascii.
From Stdlib Require DecimalString DecimalZ.
Import ListNotations.
Local Open Scope Z_scope.

(** ** Exceptions and results *)

(** A raised exception, identified by the name of its class. *)
Inductive exn : Type :=
| Raise (cls : string).

Definition IndexError : exn := Raise "IndexError".
Definition TypeError : exn := Raise "TypeError".
Definition AttributeError : exn := Raise "AttributeError".

(** Error kinds that only the specification names; model.py defines no
    exception class at all. *)
Definition EmptyLogError : exn := Raise "EmptyLogError".
Definition DuplicateParticipationError : exn := Raise "DuplicateParticipationError".
Definition InvalidInviterError : exn := Raise "InvalidInviterError".

Inductive result (A : Type) : Type :=
| Ok (a : A)
| Error (e : exn).

Arguments Ok {A} a.
Arguments Error {A} e.

Definition bind {A B : Type} (c : result A) (k : A -> result B) : result B :=
  match c with
  | Ok a => k a
  | Error e => Error e
  end.

Notation "x <- c ;; k" := (bind c (fun x => k))
  (at level 61, c at next level, right associativity).

Fixpoint mapM {A B : Type} (f : A -> result B) (l : list A) : result (list B) :=
  match l with
  | [] => Ok []
  | a :: l' => b <- f a ;; bs <- mapM f l' ;; Ok (b :: bs)
  end.

(** Python's [l[i]] on a list: a negative index counts from the end, an index
    out of range raises [IndexError]. *)
Definition getitem {A : Type} (l : list A) (i : Z) : result A :=
  let n := Z.of_nat (List.length l) in
  let j := if i <? 0 then i + n else i in
  if (j <? 0) || (n <=? j) then Error IndexError
  else match nth_error l (Z.to_nat j) with
       | Some a => Ok a
       | None => Error IndexError
       end.

(** ** Enumerations *)

Inductive Genitalia : Type := female | male | other.

Inductive EventType : Type := art_project | gentle_orgy | meeting | workshop.

Module Role.
Inductive t : Type := participant | organizer | assistant | artist | model | staff.
End Role.

Inductive ParticipationStatus : Type :=
| invited | declined | signed | rejected | queued
| accepted | withdrew | cancelled | faded | participated.

(** ** Mapped classes *)

Module Person.
Record t : Type := mk {
  id : Z;
  first_names : string;
  last_name : string;
  nickname : string;
  email : string;
  phone : option string;
  allergies : option string
}.

(** The pieces of an f-string: literal text and interpolated values. *)
Inductive piece : Type :=
| Lit (s : string)
| Val (s : string).

Definition render (p : piece) : string :=
  match p with
  | Lit s => s
  | Val s => s
  end.

Definition fstring (ps : list piece) : string :=
  fold_right (fun p acc => String.append (render p) acc) EmptyString ps.

(** [f"{self.nickname} {self.last_name}"] *)
Definition name (self : t) : string :=
  fstring [Val (nickname self); Lit " "; Val (last_name self)].

Definition with_first_names (self : t) (fn : string) : t :=
  mk (id self) fn (last_name self) (nickname self) (email self)
     (phone self) (allergies self).
End Person.

Module Participant.
Record t : Type := mk {
  id : Z;
  birth_year : option Z;
  genitalia : Genitalia
}.
End Participant.

Module Orientation.
(** [id] is both the primary key and the foreign key to [participant.id],
    declared [ondelete="CASCADE"]. *)
Record t : Type := mk {
  id : Z;
  female : option Z;
  male : option Z;
  other : option Z;
  comment : option string
}.
End Orientation.

Module Event.
Record t : Type := mk {
  id : Z;
  name : string;
  kind : EventType;
  start_time : Z;
  end_time : Z;
  location_id : option Z;
  language : option string
}.
End Event.

Module StatusLog.
(** The five columns.  A column that the constructor was not given is
    [None].  The class declares no attribute [order]. *)
Record t : Type := mk {
  participation_id : option Z;
  position : option Z;
  timestamp : option Z;
  status : ParticipationStatus;
  notes : option string
}.

(** [StatusLog(position=..., timestamp=..., status=...)] *)
Definition new (pos ts : option Z) (st : ParticipationStatus) : t :=
  mk None pos ts st None.
End StatusLog.

Module OrderingList.
(** The collection class of [Participation.status_log],
    [ordering_list('order')].  Its [append(entity)] stores the entity at the
    end of the list and then reads the attribute [order] of the entity to
    number it.  A StatusLog has no attribute of that name: the read raises
    [AttributeError], after the entity was stored, and nothing is written to
    the entity.  The result is the list as the call leaves it, and how the
    call ends. *)
Definition append (l : list StatusLog.t) (e : StatusLog.t)
  : list StatusLog.t * result unit :=
  (l ++ [e], Error AttributeError).
End OrderingList.

Module Participation.
(** [id] is [None] until the row is flushed; [event_id], [participant_id]
    and [role] are declared [nullable=False].  [status_log] is the loaded
    collection of the relationship of that name. *)
Record t : Type := mk {
  id : option Z;
  event_id : Z;
  participant_id : Z;
  role : Role.t;
  invitation_source_id : option Z;
  notes : option string;
  status_log : list StatusLog.t
}.

Definition with_id (self : t) (i : Z) : t :=
  mk (Some i) (event_id self) (participant_id self) (role self)
     (invitation_source_id self) (notes self) (status_log self).

Definition with_status_log (self : t) (l : list StatusLog.t) : t :=
  mk (id self) (event_id self) (participant_id self) (role self)
     (invitation_source_id self) (notes self) l.

(** [self.status_log.append(entry)]: the Participation as the call leaves
    it, and how the call ends. *)
Definition append_status (self : t) (e : StatusLog.t) : t * result unit :=
  let (l, r) := OrderingList.append (status_log self) e in
  (with_status_log self l, r).

(** [return self.status_log[-1].status] *)
Definition status (self : t) : result ParticipationStatus :=
  e <- getitem (status_log self) (-1) ;; Ok (StatusLog.status e).
End Participation.


(** ** Tables of stored rows *)

Record Database : Type := mkDatabase {
  persons : list Person.t;
  participants : list Participant.t;
  orientations : list Orientation.t;
  events : list Event.t;
  participations : list Participation.t
}.

Definition has_id (i : Z) (q : Participation.t) : bool :=
  match Participation.id q with
  | Some j => j =? i
  | None => false
  end.

Definition get_event (db : Database) (i : Z) : option Event.t :=
  find (fun e => Event.id e =? i) (events db).

Definition get_participant (db : Database) (i : Z) : option Participant.t :=
  find (fun r => Participant.id r =? i) (participants db).

Definition get_participation (db : Database) (i : Z) : option Participation.t :=
  find (has_id i) (participations db).

Definition stored_ids (qs : list Participation.t) : list Z :=
  flat_map (fun q => match Participation.id q with
                     | Some i => [i]
                     | None => []
                     end) qs.


(** ** The columns that Participation declares *)

Module Column.
(** What a [sql.Column(...)] of the table says about keys: [primary_key],
    [unique], [nullable] and the target of its [sql.ForeignKey], if any.
    Where the declaration is silent, [primary_key] and [unique] are [False]
    and [nullable] is [True], but [False] on a primary key. *)
Record t : Type := mk {
  name : string;
  primary_key : bool;
  unique : bool;
  nullable : bool;
  foreign_key : option string
}.
End Column.

(** The six columns of [Participation], as declared:
    [id = sql.Column(sql.Integer, primary_key=True, autoincrement=True)],
    [event_id = sql.Column(sql.Integer, sql.ForeignKey('event.id'),
       unique=True, nullable=False)],
    [participant_id = sql.Column(sql.Integer,
       sql.ForeignKey('participant.id'), unique=True, nullable=False)],
    [role = sql.Column(sql.Enum(Role), nullable=False)],
    [invitation_source_id = sql.Column(sql.Integer,
       sql.ForeignKey('participation.id'))],
    [notes = sql.Column(sql.Unicode(1024))]. *)
Definition participation_columns : list Column.t :=
  [Column.mk "id" true false false None;
   Column.mk "event_id" false true false (Some "event.id"%string);
   Column.mk "participant_id" false true false (Some "participant.id"%string);
   Column.mk "role" false false false None;
   Column.mk "invitation_source_id" false false true (Some "participation.id"%string);
   Column.mk "notes" false false true None].

Definition is_none {A : Type} (o : option A) : bool :=
  match o with
  | Some _ => false
  | None => true
  end.

(** Whether the column [col] of the row is null. *)
Definition is_null (col : string) (q : Participation.t) : bool :=
  if String.eqb col "id" then is_none (Participation.id q)
  else if String.eqb col "invitation_source_id"
       then is_none (Participation.invitation_source_id q)
  else if String.eqb col "notes" then is_none (Participation.notes q)
  else false.

(** The value of the integer column [col] of the row, when it is not
    null. *)
Definition integer_cell (col : string) (q : Participation.t) : option Z :=
  if String.eqb col "id" then Participation.id q
  else if String.eqb col "event_id" then Some (Participation.event_id q)
  else if String.eqb col "participant_id" then Some (Participation.participant_id q)
  else if String.eqb col "invitation_source_id"
       then Participation.invitation_source_id q
  else None.

Definition column_values (col : string) (rows : list Participation.t) : list Z :=
  flat_map (fun q => match integer_cell col q with
                     | Some z => [z]
                     | None => []
                     end) rows.

(** The keys that a foreign key may name. *)
Definition referenced_keys (db : Database) (target : string) : list Z :=
  if String.eqb target "event.id" then map Event.id (events db)
  else if String.eqb target "participant.id" then map Participant.id (participants db)
  else if String.eqb target "participation.id" then column_values "id" (participations db)
  else [].

Fixpoint distinct (l : list Z) : bool :=
  match l with
  | [] => true
  | z :: l' => negb (existsb (Z.eqb z) l') && distinct l'
  end.

(** An integer that a column of the database holds: 64 bits, signed. *)
Definition fits (z : Z) : bool :=
  (- 2 ^ 63 <=? z) && (z <? 2 ^ 63).

(** The table satisfies what the column declares: a primary key or unique
    column holds no value twice, a primary key or [nullable=False] column
    holds no null, and every value of a foreign key is a key of its
    target. *)
Definition column_holds (db : Database) (c : Column.t) : bool :=
  let rows := participations db in
  let values := column_values (Column.name c) rows in
  (if Column.primary_key c || Column.unique c then distinct values else true)
  && (if Column.primary_key c || negb (Column.nullable c)
      then forallb (fun q => negb (is_null (Column.name c) q)) rows
      else true)
  && match Column.foreign_key c with
     | Some target =>
         forallb (fun z => existsb (Z.eqb z) (referenced_keys db target)) values
     | None => true
     end
  && forallb fits values.

(** The stored Participations satisfy every declared constraint. *)
Definition valid (db : Database) : bool :=
  forallb (column_holds db) participation_columns.

(** The database with one more Participation in the table. *)
Definition with_participation (db : Database) (row : Participation.t) : Database :=
  mkDatabase (persons db) (participants db) (orientations db) (events db)
             (participations db ++ [row]).

(** The keys of [row] are unused in the table and name stored rows: its id
    is [i], no stored Participation has that id, that Event or that
    Participant, and the Event and the Participant are stored. *)
Definition keys_free (db : Database) (row : Participation.t) (i : Z) : Prop :=
  Participation.id row = Some i
  /\ fits i = true
  /\ ~ In i (stored_ids (participations db))
  /\ fits (Participation.event_id row) = true
  /\ ~ In (Participation.event_id row)
          (map Participation.event_id (participations db))
  /\ In (Participation.event_id row) (map Event.id (events db))
  /\ fits (Participation.participant_id row) = true
  /\ ~ In (Participation.participant_id row)
          (map Participation.participant_id (participations db))
  /\ In (Participation.participant_id row) (map Participant.id (participants db)).

(** The values of [invitation_source_id] that are not null. *)
Definition sources (rows : list Participation.t) : list Z :=
  column_values "invitation_source_id" rows.

Definition all_fit (l : list Z) : Prop :=
  forall z, In z l -> fits z = true.

(** What [valid] checks, column by column. *)
Definition constraints_satisfied (db : Database) : Prop :=
  let rows := participations db in
  (NoDup (stored_ids rows)
   /\ (forall q, In q rows -> Participation.id q <> None)
   /\ all_fit (stored_ids rows))
  /\ (NoDup (map Participation.event_id rows)
      /\ incl (map Participation.event_id rows) (map Event.id (events db))
      /\ all_fit (map Participation.event_id rows))
  /\ (NoDup (map Participation.participant_id rows)
      /\ incl (map Participation.participant_id rows)
              (map Participant.id (participants db))
      /\ all_fit (map Participation.participant_id rows))
  /\ (incl (sources rows) (stored_ids rows)
      /\ all_fit (sources rows)).

(** ** The connect hook *)

(** [dbapi_connection.engine], where there is one. *)
Record Engine : Type := mkEngine {
  driver : string
}.

(** The object that the hook is called with: whether it has an attribute
    [engine], and the statements executed through its cursors so far.  The
    event ['connect'] passes the connection of the database driver, which
    has no such attribute. *)
Record Connection : Type := mkConnection {
  engine : option Engine;
  executed : list string
}.

(** [set_sqlite_pragma(dbapi_connection, connection_record)]:
    [del connection_record]; return unless
    [dbapi_connection.engine.driver] is ['pysqlite']; open a cursor, execute
    ["PRAGMA foreign_keys=ON"], close the cursor.  The result is the
    connection as the call leaves it, and how the call ends. *)
Definition set_sqlite_pragma {R : Type} (dbapi_connection : Connection)
    (connection_record : R) : Connection * result unit :=
  match engine dbapi_connection with
  | None => (dbapi_connection, Error AttributeError)
  | Some e =>
      if negb (String.eqb (driver e) "pysqlite")
      then (dbapi_connection, Ok tt)
      else (mkConnection (engine dbapi_connection)
                         (executed dbapi_connection ++ ["PRAGMA foreign_keys=ON"%string]),
            Ok tt)
  end.

(** SQLite enforces foreign keys, and with them [ondelete="CASCADE"], on a
    connection only after the pragma was executed on it. *)
Definition foreign_keys_on (c : Connection) : bool :=
  existsb (String.eqb "PRAGMA foreign_keys=ON") (executed c).

(** ** Relationship attributes of Participation

    The value of an attribute is a Python object. *)

#[local] Unset Elimination Schemes.
Inductive object : Type :=
| NoneObj
| EventObj (e : Event.t)
| ParticipantObj (p : Participant.t)
| ParticipationObj (p : Participation.t)
| ListObj (l : list object)
| TupleObj (l : list object).
#[local] Set Elimination Schemes.

Definition of_option {A : Type} (inj : A -> object) (o : option A) : object :=
  match o with
  | Some a => inj a
  | None => NoneObj
  end.

(** [event = relationship(lambda: Event, uselist=False)] *)
Definition event (db : Database) (self : Participation.t) : object :=
  of_option EventObj (get_event db (Participation.event_id self)).

(** [participant = relationship(lambda: Event, uselist=False)]: the target
    class is [Event], so the attribute loads over the foreign key to
    [event.id]. *)
Definition participant (db : Database) (self : Participation.t) : object :=
  of_option EventObj (get_event db (Participation.event_id self)).

(** [invitation_targets = relationship(lambda: Participation,
    remote_side=[id], backref='invitation_source')].  With [id] as the remote
    side the local column is [invitation_source_id]: the relationship is
    many-to-one and its value a scalar, the Participation whose [id] is
    [self.invitation_source_id]. *)
Definition invitation_targets (db : Database) (self : Participation.t) : object :=
  match Participation.invitation_source_id self with
  | None => NoneObj
  | Some s => of_option ParticipationObj (get_participation db s)
  end.

Definition refers_to (self q : Participation.t) : bool :=
  match Participation.id self, Participation.invitation_source_id q with
  | Some i, Some s => s =? i
  | _, _ => false
  end.

(** The backref [invitation_source] is the reverse, one-to-many direction:
    the list of the Participations whose [invitation_source_id] is
    [self.id]. *)
Definition invitation_source (db : Database) (self : Participation.t) : object :=
  ListObj (map ParticipationObj (filter (refers_to self) (participations db))).

(** [o.participant]: only a Participation has the attribute. *)
Definition getattr_participant (db : Database) (o : object) : result object :=
  match o with
  | ParticipationObj q => Ok (participant db q)
  | _ => Error AttributeError
  end.

(** [for target in o]: lists and tuples are iterable, [None] and mapped
    instances are not. *)
Definition iter (o : object) : result (list object) :=
  match o with
  | ListObj l => Ok l
  | TupleObj l => Ok l
  | _ => Error TypeError
  end.

(** [return tuple((target.participant for target in self.invitation_targets))] *)
Definition get_companions (db : Database) (self : Participation.t) : result object :=
  targets <- iter (invitation_targets db self) ;;
  items <- mapM (getattr_participant db) targets ;;
  Ok (TupleObj items).

(** [source = self.invitation_source;
     return source.participant if source is not None else None] *)
Definition get_inviter (db : Database) (self : Participation.t) : result object :=
  let source := invitation_source db self in
  match source with
  | NoneObj => Ok NoneObj
  | _ => getattr_participant db source
  end.

(** ** The invitation graph *)

(** [invited_by db a b]: the stored Participation with id [a] names the one
    with id [b] in its [invitation_source_id]. *)
Definition invited_by (db : Database) (a b : Z) : Prop :=
  exists q, In q (participations db)
            /\ Participation.id q = Some a
            /\ Participation.invitation_source_id q = Some b.

Definition acyclic (db : Database) : Prop :=
  forall a, ~ clos_trans Z (invited_by db) a a.


(** The place in the table of the first row with id [i]; the length of the
    table when there is none. *)
Fixpoint rank (i : Z) (qs : list Participation.t) : nat :=
  match qs with
  | [] => 0%nat
  | q :: qs' => if has_id i q then 0%nat else S (rank i qs')
  end.

(** Every stored row has an id, and names as inviter only a row stored
    before it. *)
Definition links_descend (db : Database) : Prop :=
  forall q, In q (participations db) ->
            exists i, Participation.id q = Some i
                      /\ forall s, Participation.invitation_source_id q = Some s ->
                                   (rank s (participations db)
                                    < rank i (participations db))%nat.

(** ** The status log as the specification words it *)



(** ** Sample data *)

Definition new_participation (participant_id event_id : Z) (source : option Z)
  : Participation.t :=
  Participation.mk None event_id participant_id Role.participant source None [].

Definition sample_event (i : Z) (n : string) : Event.t :=
  Event.mk i n workshop 0 10 None None.

Definition sample_db : Database :=
  mkDatabase []
    [Participant.mk 1 (Some 1980) female; Participant.mk 2 (Some 1990) male]
    [Orientation.mk 1 (Some 1) (Some 2) None None; Orientation.mk 2 None None None None]
    [sample_event 1 "first"; sample_event 2 "second"]
    [].

(** Participant 1 takes part in event 1. *)
Definition p1 : Participation.t := Participation.with_id (new_participation 1 1 None) 1.

(** Participant 2 takes part in event 2, invited by [p1]. *)
Definition p2 : Participation.t := Participation.with_id (new_participation 2 2 (Some 1)) 2.

Definition invited_db : Database :=
  mkDatabase (persons sample_db) (participants sample_db) (orientations sample_db)
             (events sample_db) [p1; p2].

(** Participant 1 is registered for event 1. *)
Definition registered_db : Database :=
  mkDatabase (persons sample_db) (participants sample_db) (orientations sample_db)
             (events sample_db) [p1].

(** A stored Participation whose invitation source is itself. *)
Definition self_invited : Participation.t :=
  Participation.with_id (new_participation 1 1 (Some 1)) 1.

Definition self_invited_db : Database :=
  mkDatabase (persons sample_db) (participants sample_db) (orientations sample_db)
             (events sample_db) [self_invited].

(** Participant 2 in event 2, with itself as invitation source. *)
Definition second_self_invited : Participation.t :=
  Participation.with_id (new_participation 2 2 (Some 2)) 2.

(** Participant 2 in event 1, and participant 1 in event 2. *)
Definition shares_event : Participation.t :=
  Participation.with_id (new_participation 2 1 None) 2.

Definition shares_participant : Participation.t :=
  Participation.with_id (new_participation 1 2 None) 2.


Definition first_entry : StatusLog.t := StatusLog.new None (Some 10) invited.

(** A Participation after three appends of entries built without a
    position, each of whose exceptions was caught. *)
Definition three_appends : Participation.t :=
  fst (Participation.append_status
         (fst (Participation.append_status
                 (fst (Participation.append_status (new_participation 1 1 None)
                         first_entry))
                 (StatusLog.new None (Some 20) signed)))
         (StatusLog.new None (Some 30) accepted)).

(** The connection that the sqlite3 driver opens: no attribute [engine],
    nothing executed yet. *)
Definition sqlite3_connection : Connection := mkConnection None [].

Definition orientation_one : Orientation.t := Orientation.mk 1 (Some 1) (Some 2) None None.

(** ** Language proficiencies *)

Module LanguageProficiency.
(** A column that the constructor was not given is [None]; that [language]
    is declared [nullable=False] is checked only when the row is flushed. *)
Record t : Type := mk {
  id : option Z;
  person_id : option Z;
  priority : option Z;
  language : option string
}.
End LanguageProficiency.

(** ** Representations *)

(** [str(z)] of an integer: its decimal digits, after a minus sign when it
    is negative. *)
Definition str_int (z : Z) : string :=
  DecimalString.NilZero.string_of_int (Z.to_int z).

(** A nullable integer column interpolated in an f-string. *)
Definition str_optional (o : option Z) : string :=
  match o with
  | Some z => str_int z
  | None => "None"
  end.

(** A nullable text column interpolated in an f-string. *)
Definition str_text (o : option string) : string :=
  match o with
  | Some s => s
  | None => "None"
  end.

Module Repr.
(** [Orientation.__repr__], with [type(self).__name__] the name of the
    class:
    [f"<class {type(self).__name__}(id={self.id},"
     f" female={self.female}, male={self.male}, other={self.other}>"] *)
Definition orientation (self : Orientation.t) : string :=
  Person.fstring
    [Person.Lit "<class "; Person.Val "Orientation"; Person.Lit "(id=";
     Person.Val (str_int (Orientation.id self)); Person.Lit ",";
     Person.Lit " female="; Person.Val (str_optional (Orientation.female self));
     Person.Lit ", male="; Person.Val (str_optional (Orientation.male self));
     Person.Lit ", other="; Person.Val (str_optional (Orientation.other self));
     Person.Lit ">"].

(** [LanguageProficiency.__repr__]:
    [f"<class {type(self).__name__}"
     f"(person_id={self.person_id}, lang={self.language},"
     f" priority={self.priority})>"] *)
Definition language_proficiency (self : LanguageProficiency.t) : string :=
  Person.fstring
    [Person.Lit "<class "; Person.Val "LanguageProficiency";
     Person.Lit "(person_id=";
     Person.Val (str_optional (LanguageProficiency.person_id self));
     Person.Lit ", lang="; Person.Val (str_text (LanguageProficiency.language self));
     Person.Lit ",";
     Person.Lit " priority=";
     Person.Val (str_optional (LanguageProficiency.priority self));
     Person.Lit ")>"].
End Repr.

(** The character [c] does not occur in [s]. *)
Fixpoint free_of (c : Ascii.ascii) (s : string) : bool :=
  match s with
  | EmptyString => true
  | String a s' => negb (Ascii.eqb a c) && free_of c s'
  end.

(** The characters that the representations put between the columns. *)
Definition separator (c : Ascii.ascii) : Prop :=
  c = ","%char \/ c = ">"%char \/ c = ")"%char \/ c = "("%char.

Definition language_row (i : Z) : LanguageProficiency.t :=
  LanguageProficiency.mk (Some i) (Some 1) (Some 0) (Some "fi"%string).

(** A row built without a language, and one whose language is the text
    ["None"]. *)
Definition language_unset : LanguageProficiency.t :=
  LanguageProficiency.mk None (Some 1) (Some 0) None.

Definition language_none_text : LanguageProficiency.t :=
  LanguageProficiency.mk None (Some 1) (Some 0) (Some "None"%string).

(** * Properties *)

(** ** Person.name *)

Lemma append_empty_r (s : string) : String.append s EmptyString = s.
Proof.
  induction s as [|c s IH]; simpl; [reflexivity | now rewrite IH].
Qed.

Lemma length_append (s1 s2 : string) :
  String.length (String.append s1 s2) = (String.length s1 + String.length s2)%nat.
Proof.
  induction s1 as [|c s1 IH]; simpl; [reflexivity | now rewrite IH].
Qed.

(** C10: the derived [name] of a Person is the nickname, one space, and the
    last name; it has their lengths plus one and does not depend on
    [first_names]. *)
Theorem name_is_nickname_space_last_name (p : Person.t) :
  Person.name p
  = String.append (Person.nickname p) (String.append " " (Person.last_name p))
  /\ String.length (Person.name p)
     = (String.length (Person.nickname p) + 1 + String.length (Person.last_name p))%nat
  /\ (forall fn, Person.name (Person.with_first_names p fn) = Person.name p).
Proof.
  assert (E : Person.name p
              = String.append (Person.nickname p)
                  (String.append " " (Person.last_name p))).
  { unfold Person.name, Person.fstring; simpl.
    now rewrite append_empty_r. }
  split; [exact E|]. split.
  - rewrite E, length_append. simpl. lia.
  - intros fn. reflexivity.
Qed.

(** ** The status log *)

Lemma getitem_last {A : Type} (l : list A) (a : A) :
  getitem (l ++ [a]) (-1) = Ok a.
Proof.
  unfold getitem. rewrite length_app. simpl List.length.
  change (-1 <? 0) with true. cbv iota.
  replace (-1 + Z.of_nat (List.length l + 1)) with (Z.of_nat (List.length l)) by lia.
  replace (Z.of_nat (List.length l) <? 0) with false by (symmetry; apply Z.ltb_ge; lia).
  replace (Z.of_nat (List.length l + 1) <=? Z.of_nat (List.length l)) with false
    by (symmetry; apply Z.leb_gt; lia).
  simpl orb. cbv iota.
  rewrite Nat2Z.id, nth_error_app2, Nat.sub_diag by lia.
  reflexivity.
Qed.

Lemma getitem_nil {A : Type} (i : Z) : getitem (@nil A) i = Error IndexError.
Proof.
  unfold getitem. simpl List.length.
  destruct (i <? 0) eqn:E.
  - replace (i + Z.of_nat 0 <? 0) with true by (symmetry; apply Z.ltb_lt; apply Z.ltb_lt in E; lia).
    reflexivity.
  - apply Z.ltb_ge in E.
    replace (Z.of_nat 0 <=? i) with true by (symmetry; apply Z.leb_le; lia).
    now rewrite orb_true_r.
Qed.

(** Every append raises [AttributeError], and leaves the entry at the end of
    the log as it was built. *)
Lemma append_status_raises (p : Participation.t) (e : StatusLog.t) :
  snd (Participation.append_status p e) = Error AttributeError
  /\ Participation.status_log (fst (Participation.append_status p e))
     = Participation.status_log p ++ [e].
Proof. split; reflexivity. Qed.

Lemma map_eq_snoc {A B : Type} (f : A -> B) (l' : list A) (l : list A) (a : A) :
  map f l' = map f (l ++ [a]) ->
  exists k b, l' = k ++ [b] /\ f b = f a.
Proof.
  rewrite map_app. simpl. intros H.
  apply map_eq_app in H as (k & t & -> & _ & Ht).
  destruct t as [|b [|c t]]; simpl in Ht; try discriminate.
  injection Ht as Hb. now exists k, b.
Qed.

(** The current status of a Participation with a non-empty status log is
    the status of the last entry of the list; it depends on the statuses of
    the entries only, not on their timestamps or positions. *)
Lemma status_is_status_of_last_entry
    (p : Participation.t) (l : list StatusLog.t) (e : StatusLog.t) :
  Participation.status_log p = l ++ [e] ->
  Participation.status p = Ok (StatusLog.status e)
  /\ forall p', map StatusLog.status (Participation.status_log p')
                = map StatusLog.status (Participation.status_log p) ->
                Participation.status p' = Participation.status p.
Proof.
  intros E.
  assert (S : Participation.status p = Ok (StatusLog.status e)).
  { unfold Participation.status. rewrite E. now rewrite getitem_last. }
  split; [exact S|].
  intros p' H. rewrite E in H.
  apply map_eq_snoc in H as (k & b & E' & Hb).
  rewrite S. unfold Participation.status. rewrite E'.
  rewrite getitem_last. simpl. now rewrite Hb.
Qed.


(** C2: appending an entry to the empty status log of a Participation raises
    [AttributeError]; the entry is in the log, and its position is still
    [None], not 0.  After three such appends no entry has a position. *)
Theorem appending_raises_and_sets_no_position :
  Participation.status_log (new_participation 1 1 None) = []
  /\ snd (Participation.append_status (new_participation 1 1 None) first_entry)
     = Error AttributeError
  /\ Participation.status_log
       (fst (Participation.append_status (new_participation 1 1 None) first_entry))
     = [first_entry]
  /\ map StatusLog.position
       (Participation.status_log
          (fst (Participation.append_status (new_participation 1 1 None) first_entry)))
     = [None]
  /\ map StatusLog.position (Participation.status_log three_appends)
     = [None; None; None].
Proof.
  repeat split.
Qed.

(** C3: the current status of a Participation with an empty log raises
    [IndexError]; with a non-empty log it is the status of the last entry. *)
Theorem status_raises_IndexError_iff_empty (p : Participation.t) :
  (Participation.status_log p = [] /\ Participation.status p = Error IndexError)
  \/ (exists l e, Participation.status_log p = l ++ [e]
                  /\ Participation.status p = Ok (StatusLog.status e)).
Proof.
  destruct (Participation.status_log p) as [|e0 l0] eqn:E using rev_ind.
  - left. split; [reflexivity|].
    unfold Participation.status. rewrite E. now rewrite getitem_nil.
  - right. exists l0, e0. split; [reflexivity|].
    unfold Participation.status. rewrite E. now rewrite getitem_last.
Qed.

(** C3, as stated: the exception raised on an empty log is not
    [EmptyLogError]. *)
Lemma status_empty_log_not_EmptyLogError :
  Participation.status_log (new_participation 1 1 None) = []
  /\ Participation.status (new_participation 1 1 None) = Error IndexError
  /\ Participation.status (new_participation 1 1 None) <> Error EmptyLogError.
Proof.
  repeat split. discriminate.
Qed.

(** ** The declared constraints *)

Lemma mem_iff (z : Z) (l : list Z) : existsb (Z.eqb z) l = true <-> In z l.
Proof.
  rewrite existsb_exists. split.
  - intros (x & Hin & E). apply Z.eqb_eq in E. now subst.
  - intros Hin. exists z. split; [exact Hin | apply Z.eqb_refl].
Qed.

Lemma distinct_iff (l : list Z) : distinct l = true <-> NoDup l.
Proof.
  induction l as [|z l IH]; simpl.
  - split; [constructor | reflexivity].
  - rewrite andb_true_iff, negb_true_iff, IH, NoDup_cons_iff.
    rewrite <- not_true_iff_false, mem_iff. reflexivity.
Qed.

Lemma forallb_mem (vs keys : list Z) :
  forallb (fun z => existsb (Z.eqb z) keys) vs = true <-> incl vs keys.
Proof.
  rewrite forallb_forall. unfold incl.
  split; intros H z Hz; apply mem_iff; now apply H.
Qed.

Lemma forallb_fits (l : list Z) : forallb fits l = true <-> all_fit l.
Proof. apply forallb_forall. Qed.

Lemma column_values_event (rows : list Participation.t) :
  column_values "event_id" rows = map Participation.event_id rows.
Proof.
  induction rows as [|q rows IH]; [reflexivity|].
  change (column_values "event_id" (q :: rows))
    with (Participation.event_id q :: column_values "event_id" rows).
  now rewrite IH.
Qed.

Lemma column_values_participant (rows : list Participation.t) :
  column_values "participant_id" rows = map Participation.participant_id rows.
Proof.
  induction rows as [|q rows IH]; [reflexivity|].
  change (column_values "participant_id" (q :: rows))
    with (Participation.participant_id q :: column_values "participant_id" rows).
  now rewrite IH.
Qed.

Lemma column_values_id (rows : list Participation.t) :
  column_values "id" rows = stored_ids rows.
Proof. reflexivity. Qed.

Lemma column_values_role (rows : list Participation.t) :
  column_values "role" rows = [].
Proof.
  induction rows as [|q rows IH]; [reflexivity | exact IH].
Qed.

Lemma column_values_notes (rows : list Participation.t) :
  column_values "notes" rows = [].
Proof.
  induction rows as [|q rows IH]; [reflexivity | exact IH].
Qed.

Lemma not_null_id (rows : list Participation.t) :
  forallb (fun q => negb (is_null "id" q)) rows = true
  <-> forall q, In q rows -> Participation.id q <> None.
Proof.
  rewrite forallb_forall.
  split; intros H q Hq; specialize (H q Hq);
    change (is_null "id" q) with (is_none (Participation.id q)) in *;
    destruct (Participation.id q); simpl in *; congruence.
Qed.

Lemma forallb_always {A : Type} (rows : list A) :
  forallb (fun _ => true) rows = true.
Proof. induction rows; simpl; auto. Qed.

(** [valid] says what the columns declare. *)
Lemma valid_iff (db : Database) :
  valid db = true <-> constraints_satisfied db.
Proof.
  unfold valid, participation_columns, forallb at 1, column_holds.
  cbn [Column.name Column.primary_key Column.unique Column.nullable
       Column.foreign_key orb negb].
  change (referenced_keys db "event.id") with (map Event.id (events db)).
  change (referenced_keys db "participant.id")
    with (map Participant.id (participants db)).
  change (referenced_keys db "participation.id")
    with (stored_ids (participations db)).
  change (fun q : Participation.t => negb (is_null "event_id" q))
    with (fun _ : Participation.t => true).
  change (fun q : Participation.t => negb (is_null "participant_id" q))
    with (fun _ : Participation.t => true).
  change (fun q : Participation.t => negb (is_null "role" q))
    with (fun _ : Participation.t => true).
  rewrite column_values_event, column_values_participant, column_values_id,
    column_values_role, column_values_notes, !forallb_always.
  change (column_values "invitation_source_id" (participations db))
    with (sources (participations db)).
  simpl forallb.
  rewrite !andb_true_r, !andb_true_l, !andb_true_iff.
  rewrite !distinct_iff, !forallb_mem, !forallb_fits, not_null_id.
  unfold constraints_satisfied. tauto.
Qed.

Lemma NoDup_snoc_iff {A : Type} (l : list A) (a : A) :
  NoDup (l ++ [a]) <-> NoDup l /\ ~ In a l.
Proof.
  split.
  - intros H. split; [now apply NoDup_app_remove_r in H|].
    intros Hin. apply (NoDup_remove_2 l [] a) in H.
    apply H. rewrite app_nil_r. exact Hin.
  - intros [Hl Ha]. apply NoDup_app; [exact Hl | repeat constructor; intros [] |].
    intros x Hx [<- | []]. exact (Ha Hx).
Qed.

Lemma all_fit_snoc (l : list Z) (z : Z) :
  all_fit l -> fits z = true -> all_fit (l ++ [z]).
Proof.
  intros Hl Hz x Hx. apply in_app_or in Hx as [Hx | [<- | []]]; auto.
Qed.

Lemma stored_ids_snoc (rows : list Participation.t) (row : Participation.t) (i : Z) :
  Participation.id row = Some i ->
  stored_ids (rows ++ [row]) = stored_ids rows ++ [i].
Proof.
  intros H. unfold stored_ids. rewrite flat_map_app. simpl. now rewrite H.
Qed.

Lemma sources_snoc (rows : list Participation.t) (row : Participation.t) :
  sources (rows ++ [row])
  = sources rows ++ match Participation.invitation_source_id row with
                    | Some s => [s]
                    | None => []
                    end.
Proof.
  unfold sources, column_values. rewrite flat_map_app. simpl.
  change (integer_cell "invitation_source_id" row)
    with (Participation.invitation_source_id row).
  now rewrite app_nil_r.
Qed.

(** A row with free keys whose invitation source, if any, is a stored row or
    the row itself keeps the declared constraints satisfied. *)
Lemma valid_with_participation (db : Database) (row : Participation.t) (i : Z) :
  valid db = true ->
  keys_free db row i ->
  (forall s, Participation.invitation_source_id row = Some s ->
             In s (stored_ids (participations db)) \/ s = i) ->
  valid (with_participation db row) = true.
Proof.
  rewrite !valid_iff. unfold constraints_satisfied. simpl.
  intros ((Hn & Hid & Hf) & (He & Hei & Hef) & (Hp & Hpi & Hpf) & (Hs & Hsf))
         (Ei & Fi & Ni & Fe & Ne & Ie & Fp & Np & Ip) Hsrc.
  rewrite (stored_ids_snoc _ _ _ Ei), !map_app, sources_snoc. simpl.
  repeat split.
  - apply NoDup_snoc_iff. now split.
  - intros q Hq. apply in_app_or in Hq as [Hq | [<- | []]]; [now apply Hid|].
    rewrite Ei. discriminate.
  - now apply all_fit_snoc.
  - apply NoDup_snoc_iff. now split.
  - apply incl_app; [exact Hei|]. intros x [<- | []]. exact Ie.
  - now apply all_fit_snoc.
  - apply NoDup_snoc_iff. now split.
  - apply incl_app; [exact Hpi|]. intros x [<- | []]. exact Ip.
  - now apply all_fit_snoc.
  - apply incl_app; [now apply incl_appl|].
    destruct (Participation.invitation_source_id row) as [s|]; [|intros x []].
    intros x [<- | []]. apply in_or_app.
    destruct (Hsrc s eq_refl) as [H | ->]; [now left | right; now left].
  - intros x Hx. apply in_app_or in Hx as [Hx | Hx]; [now apply Hsf|].
    destruct (Participation.invitation_source_id row) as [s|]; [|destruct Hx].
    destruct Hx as [<- | []].
    destruct (Hsrc s eq_refl) as [H | ->]; [now apply Hf | exact Fi].
Qed.

(** C4: a table that holds a Participation for a (participant, event) pair
    and a second one for the same pair does not satisfy the constraints that
    the columns of Participation declare. *)
Theorem second_participation_for_pair_violates_unique
    (db : Database) (row q : Participation.t) :
  In q (participations db) ->
  (Participation.participant_id q, Participation.event_id q)
  = (Participation.participant_id row, Participation.event_id row) ->
  valid (with_participation db row) = false.
Proof.
  intros Hin Hpair. injection Hpair as _ Hev.
  apply not_true_iff_false. rewrite valid_iff.
  unfold constraints_satisfied. simpl.
  intros (_ & (He & _) & _). rewrite map_app in He. simpl in He.
  apply NoDup_snoc_iff in He as [_ He]. apply He.
  rewrite <- Hev. now apply in_map.
Qed.

Lemma second_participation_for_pair_violates_unique_witness :
  valid registered_db = true
  /\ valid (with_participation registered_db
              (Participation.with_id (new_participation 1 1 None) 2)) = false.
Proof.
  split; [reflexivity|].
  apply (second_participation_for_pair_violates_unique registered_db
           (Participation.with_id (new_participation 1 1 None) 2) p1).
  - now left.
  - reflexivity.
Defined.

(** C4, as stated: with participant 1 registered for event 1, the table that
    also holds participant 2 for event 1 violates the declared constraints,
    and so does the one that also holds participant 1 for event 2, although
    in both the two pairs differ.  What the connect hook raises on the
    connection of the driver is not [DuplicateParticipationError]. *)
Lemma pairs_differ_and_constraints_violated :
  valid registered_db = true
  /\ (Participation.participant_id p1, Participation.event_id p1)
     <> (Participation.participant_id shares_event, Participation.event_id shares_event)
  /\ valid (with_participation registered_db shares_event) = false
  /\ (Participation.participant_id p1, Participation.event_id p1)
     <> (Participation.participant_id shares_participant,
         Participation.event_id shares_participant)
  /\ valid (with_participation registered_db shares_participant) = false
  /\ snd (set_sqlite_pragma sqlite3_connection tt) <> Error DuplicateParticipationError.
Proof.
  repeat split; discriminate.
Qed.

(** ** Invitation links *)

(** C5: no declared constraint looks at the Event of the invitation source.
    A table that satisfies the declared constraints still does so with one
    more Participation whose keys are free and whose invitation source is a
    stored Participation; the link is then in the table, and it connects two
    different Events. *)
Theorem cross_event_invitation_admitted
    (db : Database) (row q : Participation.t) (i s : Z) :
  valid db = true ->
  keys_free db row i ->
  In q (participations db) ->
  Participation.id q = Some s ->
  Participation.invitation_source_id row = Some s ->
  valid (with_participation db row) = true
  /\ invited_by (with_participation db row) i s
  /\ Participation.event_id row <> Participation.event_id q.
Proof.
  intros Hv Hk Hq Hid Hs. split; [|split].
  - apply (valid_with_participation db row i Hv Hk).
    intros s' Hs'. left. rewrite Hs in Hs'. injection Hs' as <-.
    unfold stored_ids. apply in_flat_map. exists q.
    split; [exact Hq | rewrite Hid; now left].
  - exists row. simpl. split; [apply in_or_app; right; now left|].
    split; [apply Hk | exact Hs].
  - destruct Hk as (_ & _ & _ & _ & Ne & _).
    intros E. apply Ne. rewrite E. now apply in_map.
Qed.

Lemma cross_event_invitation_admitted_witness :
  valid invited_db = true
  /\ invited_by invited_db 2 1
  /\ Participation.event_id p2 <> Participation.event_id p1.
Proof.
  apply (cross_event_invitation_admitted registered_db p2 p1 2 1).
  - reflexivity.
  - repeat split; try reflexivity; simpl; intuition discriminate.
  - now left.
  - reflexivity.
  - reflexivity.
Defined.

(** C5, as stated: [invited_db] satisfies every declared constraint, and its
    invitation link connects the Participation of event 2 with that of
    event 1.  What the connect hook raises on the connection of the driver
    is not [InvalidInviterError]. *)
Lemma stored_link_across_events :
  valid invited_db = true
  /\ In p1 (participations invited_db)
  /\ In p2 (participations invited_db)
  /\ Participation.invitation_source_id p2 = Participation.id p1
  /\ Participation.event_id p2 <> Participation.event_id p1
  /\ snd (set_sqlite_pragma sqlite3_connection tt) <> Error InvalidInviterError.
Proof.
  repeat split; try discriminate.
  - now left.
  - right. now left.
Qed.

(** ** Acyclicity *)

Lemma descending_chain (db : Database) (a b : Z) :
  links_descend db ->
  clos_trans Z (invited_by db) a b ->
  (rank b (participations db) < rank a (participations db))%nat.
Proof.
  intros Hd Ht. induction Ht as [a b (q & Hin & Hid & Hs)|a c b _ IH1 _ IH2].
  - destruct (Hd q Hin) as (i & Hi & Hlt).
    rewrite Hid in Hi. injection Hi as <-. now apply Hlt.
  - lia.
Qed.

(** C6: a table in which every Participation names as invitation source
    only a row that stands before it is acyclic; the declared constraints do
    not ask for that: they stay satisfied when a Participation with free
    keys that names itself is added, and then the graph has a cycle. *)
Theorem ordered_links_acyclic_self_link_admitted
    (db : Database) (row : Participation.t) (i : Z) :
  links_descend db ->
  valid db = true ->
  keys_free db row i ->
  Participation.invitation_source_id row = Some i ->
  acyclic db
  /\ valid (with_participation db row) = true
  /\ ~ acyclic (with_participation db row).
Proof.
  intros Hd Hv Hk Hs. split; [|split].
  - intros a Ht. pose proof (descending_chain db a a Hd Ht). lia.
  - apply (valid_with_participation db row i Hv Hk).
    intros s' Hs'. right. congruence.
  - intros H. apply (H i). apply t_step.
    exists row. simpl. split; [apply in_or_app; right; now left|].
    split; [apply Hk | exact Hs].
Qed.

Lemma ordered_links_acyclic_self_link_admitted_witness :
  acyclic registered_db
  /\ valid (with_participation registered_db second_self_invited) = true
  /\ ~ acyclic (with_participation registered_db second_self_invited).
Proof.
  apply (ordered_links_acyclic_self_link_admitted registered_db second_self_invited 2).
  - intros q [<- | []]. exists 1. split; [reflexivity | discriminate].
  - reflexivity.
  - repeat split; try reflexivity; simpl; intuition discriminate.
  - reflexivity.
Defined.

(** C6, as stated: [self_invited_db] satisfies every declared constraint,
    and its one Participation is reachable from itself.  What the connect
    hook raises on the connection of the driver is not
    [InvalidInviterError]. *)
Lemma valid_table_with_cycle :
  valid self_invited_db = true
  /\ clos_trans Z (invited_by self_invited_db) 1 1
  /\ ~ acyclic self_invited_db
  /\ snd (set_sqlite_pragma sqlite3_connection tt) <> Error InvalidInviterError.
Proof.
  assert (C : clos_trans Z (invited_by self_invited_db) 1 1).
  { apply t_step. exists self_invited. repeat split. now left. }
  repeat split; try discriminate; trivial.
  intros H. exact (H 1 C).
Qed.

(** ** get_inviter and get_companions *)

(** [Participation.participant] is the Event of the Participation, never a
    Participant. *)
Lemma participant_is_event (db : Database) (q : Participation.t) :
  participant db q = event db q
  /\ forall r, participant db q <> ParticipantObj r.
Proof.
  split; [reflexivity|].
  intros r. unfold participant.
  destruct (get_event db (Participation.event_id q)); discriminate.
Qed.

Lemma get_inviter_raises (db : Database) (self : Participation.t) :
  get_inviter db self = Error AttributeError.
Proof. reflexivity. Qed.

Lemma get_companions_raises (db : Database) (self : Participation.t) :
  get_companions db self = Error TypeError.
Proof.
  unfold get_companions, invitation_targets.
  destruct (Participation.invitation_source_id self) as [s|]; [|reflexivity].
  destruct (get_participation db s); reflexivity.
Qed.

(** C7: [p2] was invited by [p1], the Participation of participant 1.
    [get_inviter] of [p2] raises [AttributeError], because
    [invitation_source] is the list side of the relationship; the scalar side
    is [invitation_targets], and the [participant] of the Participation found
    there is event 1. *)
Theorem get_inviter_of_invited :
  Participation.invitation_source_id p2 = Participation.id p1
  /\ get_inviter invited_db p2 = Error AttributeError
  /\ invitation_source invited_db p2 = ListObj []
  /\ invitation_targets invited_db p2 = ParticipationObj p1
  /\ getattr_participant invited_db (invitation_targets invited_db p2)
     = Ok (EventObj (sample_event 1 "first")).
Proof.
  repeat split.
Qed.

(** C8: [p1] has invited [p2].  [get_companions] of [p1] raises [TypeError]:
    [invitation_targets] of [p1] is [None], the Participation that names [p1]
    is in [invitation_source]; and [get_companions] of [p2] raises it too,
    iterating over the Participation [p1]. *)
Theorem get_companions_of_inviter :
  get_companions invited_db p1 = Error TypeError
  /\ invitation_targets invited_db p1 = NoneObj
  /\ invitation_source invited_db p1 = ListObj [ParticipationObj p2]
  /\ get_companions invited_db p2 = Error TypeError.
Proof.
  repeat split.
Qed.

(** ** The connect hook *)

(** An object without the attribute [engine] makes the hook raise, with
    nothing executed. *)
Lemma hook_raises_without_engine {R : Type} (c : Connection) (r : R) :
  engine c = None ->
  set_sqlite_pragma c r = (c, Error AttributeError).
Proof.
  intros H. unfold set_sqlite_pragma. now rewrite H.
Qed.

(** On an object that has the attribute, with the driver [pysqlite], the
    hook executes the pragma. *)
Lemma hook_sets_pragma_with_engine {R : Type} (l : list string) (r : R) :
  foreign_keys_on
    (fst (set_sqlite_pragma (mkConnection (Some (mkEngine "pysqlite")) l) r))
  = true.
Proof.
  simpl. unfold foreign_keys_on. simpl.
  rewrite existsb_app. simpl. apply orb_true_r.
Qed.



(** ** Representations *)

Lemma string_tail (a : Ascii.ascii) (s s' : string) :
  String a s = String a s' -> s = s'.
Proof. now intros [= ->]. Qed.

Lemma split_at (c : Ascii.ascii) (a a' r r' : string) :
  free_of c a = true -> free_of c a' = true ->
  String.append a (String c r) = String.append a' (String c r') ->
  a = a' /\ r = r'.
Proof.
  revert a'. induction a as [|x a IH]; intros [|y a'] Ha Ha' H; simpl in *.
  - injection H as ->. auto.
  - injection H as -> _. rewrite Ascii.eqb_refl in Ha'. discriminate.
  - injection H as -> _. rewrite Ascii.eqb_refl in Ha. discriminate.
  - injection H as -> H.
    apply andb_true_iff in Ha as [_ Ha]. apply andb_true_iff in Ha' as [_ Ha'].
    destruct (IH a' Ha Ha' H) as [-> ->]. auto.
Qed.

Lemma free_of_append (c : Ascii.ascii) (a b : string) :
  free_of c (String.append a b) = free_of c a && free_of c b.
Proof.
  induction a as [|x a IH]; simpl; [reflexivity|].
  now rewrite IH, andb_assoc.
Qed.

Lemma digits_free_of (c : Ascii.ascii) (d : Decimal.uint) :
  separator c -> free_of c (DecimalString.NilEmpty.string_of_uint d) = true.
Proof.
  intros [-> | [-> | [-> | ->]]]; induction d; simpl; auto.
Qed.

Lemma decimal_free_of (c : Ascii.ascii) (d : Decimal.uint) :
  separator c -> free_of c (DecimalString.NilZero.string_of_uint d) = true.
Proof.
  intros Hc.
  destruct d;
    lazymatch goal with
    | |- free_of _ (DecimalString.NilZero.string_of_uint ?u) = true =>
        first [ exact (digits_free_of c u Hc)
              | destruct Hc as [-> | [-> | [-> | ->]]]; reflexivity ]
    end.
Qed.

Lemma str_int_free_of (c : Ascii.ascii) (z : Z) :
  separator c -> free_of c (str_int z) = true.
Proof.
  intros Hc. unfold str_int.
  destruct (Z.to_int z) as [d|d]; simpl.
  - now apply decimal_free_of.
  - rewrite (decimal_free_of c d Hc).
    destruct Hc as [-> | [-> | [-> | ->]]]; reflexivity.
Qed.

Lemma str_optional_free_of (c : Ascii.ascii) (o : option Z) :
  separator c -> free_of c (str_optional o) = true.
Proof.
  intros Hc. destruct o as [z|]; [now apply str_int_free_of|].
  destruct Hc as [-> | [-> | [-> | ->]]]; reflexivity.
Qed.

Lemma to_int_not_nil (z : Z) :
  Z.to_int z <> Decimal.Pos Decimal.Nil /\ Z.to_int z <> Decimal.Neg Decimal.Nil.
Proof.
  split; intros H; pose proof (f_equal Z.of_int H) as E;
    rewrite DecimalZ.of_to in E; simpl in E; subst z;
    vm_compute in H; discriminate H.
Qed.

Lemma str_int_parses (z : Z) :
  DecimalString.NilZero.int_of_string (str_int z) = Some (Z.to_int z).
Proof.
  destruct (to_int_not_nil z) as [H1 H2].
  now apply DecimalString.NilZero.isi.
Qed.

Lemma str_int_injective (z z' : Z) : str_int z = str_int z' -> z = z'.
Proof.
  intros H. apply (f_equal DecimalString.NilZero.int_of_string) in H.
  rewrite !str_int_parses in H. injection H as H.
  now apply DecimalZ.to_int_inj.
Qed.

Lemma str_optional_injective (o o' : option Z) :
  str_optional o = str_optional o' -> o = o'.
Proof.
  destruct o as [z|], o' as [z'|]; simpl; intros H.
  - f_equal. now apply str_int_injective.
  - apply (f_equal DecimalString.NilZero.int_of_string) in H.
    rewrite str_int_parses in H. discriminate.
  - apply (f_equal DecimalString.NilZero.int_of_string) in H.
    rewrite str_int_parses in H. discriminate.
  - reflexivity.
Qed.

Ltac peel H := repeat (apply string_tail in H).

(** X18: the representation of an Orientation tells its id and its three
    scores, and nothing else: two Orientations have the same representation
    exactly when they agree on [id], [female], [male] and [other], whatever
    their comments. *)
Theorem orientation_repr_tells_scores (o1 o2 : Orientation.t) :
  Repr.orientation o1 = Repr.orientation o2
  <-> Orientation.id o1 = Orientation.id o2
      /\ Orientation.female o1 = Orientation.female o2
      /\ Orientation.male o1 = Orientation.male o2
      /\ Orientation.other o1 = Orientation.other o2.
Proof.
  unfold Repr.orientation. split.
  - pose proof (str_int_free_of "," (Orientation.id o1) (or_introl eq_refl)) as F1.
    pose proof (str_int_free_of "," (Orientation.id o2) (or_introl eq_refl)) as F2.
    pose proof (str_optional_free_of "," (Orientation.female o1) (or_introl eq_refl)) as G1.
    pose proof (str_optional_free_of "," (Orientation.female o2) (or_introl eq_refl)) as G2.
    pose proof (str_optional_free_of "," (Orientation.male o1) (or_introl eq_refl)) as M1.
    pose proof (str_optional_free_of "," (Orientation.male o2) (or_introl eq_refl)) as M2.
    pose proof (str_optional_free_of ">" (Orientation.other o1)
                  (or_intror (or_introl eq_refl))) as O1.
    pose proof (str_optional_free_of ">" (Orientation.other o2)
                  (or_intror (or_introl eq_refl))) as O2.
    remember (str_int (Orientation.id o1)) as a1.
    remember (str_int (Orientation.id o2)) as a2.
    remember (str_optional (Orientation.female o1)) as b1.
    remember (str_optional (Orientation.female o2)) as b2.
    remember (str_optional (Orientation.male o1)) as c1.
    remember (str_optional (Orientation.male o2)) as c2.
    remember (str_optional (Orientation.other o1)) as d1.
    remember (str_optional (Orientation.other o2)) as d2.
    simpl. intros H. peel H.
    apply split_at in H as [Ea H]; trivial. peel H.
    apply split_at in H as [Eb H]; trivial. peel H.
    apply split_at in H as [Ec H]; trivial. peel H.
    apply split_at in H as [Ed _]; trivial.
    subst. repeat split.
    + now apply str_int_injective.
    + now apply str_optional_injective.
    + now apply str_optional_injective.
    + now apply str_optional_injective.
  - intros (-> & -> & -> & ->). reflexivity.
Qed.

Lemma str_int_samples :
  str_int 0 = "0"%string /\ str_int 1980 = "1980"%string /\ str_int (-5) = "-5"%string.
Proof. repeat split. Qed.

Lemma repr_samples :
  Repr.orientation orientation_one
  = "<class Orientation(id=1, female=1, male=2, other=None>"%string
  /\ Repr.language_proficiency (language_row 3)
     = "<class LanguageProficiency(person_id=1, lang=fi, priority=0)>"%string.
Proof. split; reflexivity. Qed.

(** X19: the representation of an Orientation opens a parenthesis and never
    closes it. *)
Theorem orientation_repr_leaves_parenthesis_open (o : Orientation.t) :
  free_of "(" (Repr.orientation o) = false
  /\ free_of ")" (Repr.orientation o) = true.
Proof.
  unfold Repr.orientation, Person.fstring. simpl fold_right.
  split; [reflexivity|].
  assert (P : separator ")") by (right; right; now left).
  pose proof (str_int_free_of ")" (Orientation.id o) P) as Hi.
  pose proof (str_optional_free_of ")" (Orientation.female o) P) as Hf.
  pose proof (str_optional_free_of ")" (Orientation.male o) P) as Hm.
  pose proof (str_optional_free_of ")" (Orientation.other o) P) as Ho.
  remember (str_int (Orientation.id o)) as a.
  remember (str_optional (Orientation.female o)) as b.
  remember (str_optional (Orientation.male o)) as c.
  remember (str_optional (Orientation.other o)) as d.
  simpl. rewrite free_of_append, Hi.
  simpl. rewrite free_of_append, Hf.
  simpl. rewrite free_of_append, Hm.
  simpl. rewrite free_of_append, Ho.
  reflexivity.
Qed.

(** X20: when the text that a language row prints for its language holds
    no comma, the representation of the row tells its person, that text and
    its priority, and nothing else: two rows have the same representation
    exactly when they agree on [person_id], on the text printed for
    [language] and on [priority], whatever their ids. *)
Theorem language_repr_tells_columns (r1 r2 : LanguageProficiency.t) :
  free_of "," (str_text (LanguageProficiency.language r1)) = true ->
  free_of "," (str_text (LanguageProficiency.language r2)) = true ->
  Repr.language_proficiency r1 = Repr.language_proficiency r2
  <-> LanguageProficiency.person_id r1 = LanguageProficiency.person_id r2
      /\ str_text (LanguageProficiency.language r1)
         = str_text (LanguageProficiency.language r2)
      /\ LanguageProficiency.priority r1 = LanguageProficiency.priority r2.
Proof.
  intros L1 L2. unfold Repr.language_proficiency. split.
  - pose proof (str_optional_free_of "," (LanguageProficiency.person_id r1)
                  (or_introl eq_refl)) as F1.
    pose proof (str_optional_free_of "," (LanguageProficiency.person_id r2)
                  (or_introl eq_refl)) as F2.
    pose proof (str_optional_free_of ")" (LanguageProficiency.priority r1)
                  (or_intror (or_intror (or_introl eq_refl)))) as P1.
    pose proof (str_optional_free_of ")" (LanguageProficiency.priority r2)
                  (or_intror (or_intror (or_introl eq_refl)))) as P2.
    remember (str_optional (LanguageProficiency.person_id r1)) as a1.
    remember (str_optional (LanguageProficiency.person_id r2)) as a2.
    remember (str_optional (LanguageProficiency.priority r1)) as c1.
    remember (str_optional (LanguageProficiency.priority r2)) as c2.
    remember (str_text (LanguageProficiency.language r1)) as b1.
    remember (str_text (LanguageProficiency.language r2)) as b2.
    simpl. intros H. peel H.
    apply split_at in H as [Ea H]; trivial. peel H.
    apply split_at in H as [Eb H]; trivial. peel H.
    apply split_at in H as [Ec _]; trivial.
    subst. repeat split; trivial; now apply str_optional_injective.
  - intros (E1 & E2 & E3). now rewrite E1, E2, E3.
Qed.

Lemma language_repr_tells_columns_witness :
  Repr.language_proficiency (language_row 3) = Repr.language_proficiency (language_row 9)
  <-> LanguageProficiency.person_id (language_row 3)
      = LanguageProficiency.person_id (language_row 9)
      /\ str_text (LanguageProficiency.language (language_row 3))
         = str_text (LanguageProficiency.language (language_row 9))
      /\ LanguageProficiency.priority (language_row 3)
         = LanguageProficiency.priority (language_row 9).
Proof.
  apply (language_repr_tells_columns (language_row 3) (language_row 9)); reflexivity.
Defined.

(** A row without a language prints like a row whose language is the text
    ["None"]. *)
Lemma unset_language_prints_None :
  LanguageProficiency.language language_unset
  <> LanguageProficiency.language language_none_text
  /\ Repr.language_proficiency language_unset
     = Repr.language_proficiency language_none_text
  /\ Repr.language_proficiency language_unset
     = "<class LanguageProficiency(person_id=1, lang=None, priority=0)>"%string.
Proof.
  repeat split. discriminate.
Qed.
